(** * The DAC field list of the GC heap (src/coreclr/gc/gc_typefields.h)

    The header is an X-macro list: a sequence of macro invocations
    (DEFINE_FIELD, DEFINE_DPTR_FIELD, DEFINE_ARRAY_FIELD,
    DEFINE_MISSING_FIELD) interleaved with conditional-inclusion
    directives (#if / #else / #endif) over the macros ALL_FIELDS,
    BACKGROUND_GC and USE_REGIONS.  The program is therefore the
    preprocessor's conditional-inclusion pass run on that text.  It is
    embedded here line by line, and the pass is modelled as the usual
    machine with a stack of open conditional groups. *)

From Stdlib Require Import List String Bool Arith Lia.
Import ListNotations.
Open Scope string_scope.
Open Scope list_scope.
Open Scope nat_scope.
Set Warnings "-register-all".

(** ** Syntax of the header *)

(** Controlling expressions of [#if]; the header uses [defined], [!] and [||]. *)
Inductive pp_expr : Type :=
| Defined (macro : string)
| Not (e : pp_expr)
| Or (e1 e2 : pp_expr).

(** One macro invocation of the field list, with its arguments as written. *)
Inductive invocation : Type :=
| DEFINE_FIELD (field_name field_type : string)
| DEFINE_DPTR_FIELD (field_name field_type : string)
| DEFINE_ARRAY_FIELD (field_name field_type array_length : string)
| DEFINE_MISSING_FIELD.

(** One logical line of the header. *)
Inductive line : Type :=
| Invoke (d : invocation)
| If (e : pp_expr)
| Else
| Endif.

(** The header itself, one entry per source line (lines 1 to 32). *)
Definition gc_typefields : list line :=
  [ Invoke (DEFINE_FIELD "alloc_allocated" "uint8_t*")
  ; Invoke (DEFINE_DPTR_FIELD "ephemeral_heap_segment" "dac_heap_segment")
  ; Invoke (DEFINE_DPTR_FIELD "finalize_queue" "dac_finalize_queue")
  ; Invoke (DEFINE_FIELD "oom_info" "oom_history")
  ; Invoke (DEFINE_ARRAY_FIELD "interesting_data_per_heap" "size_t" "NUM_GC_DATA_POINTS")
  ; Invoke (DEFINE_ARRAY_FIELD "compact_reasons_per_heap" "size_t" "MAX_COMPACT_REASONS_COUNT")
  ; Invoke (DEFINE_ARRAY_FIELD "expand_mechanisms_per_heap" "size_t" "MAX_EXPAND_MECHANISMS_COUNT")
  ; Invoke (DEFINE_ARRAY_FIELD "interesting_mechanism_bits_per_heap" "size_t" "MAX_GC_MECHANISM_BITS_COUNT")
  ; Invoke (DEFINE_FIELD "internal_root_array" "uint8_t*")
  ; Invoke (DEFINE_FIELD "internal_root_array_index" "size_t")
  ; Invoke (DEFINE_FIELD "heap_analyze_success" "BOOL")
  ; Invoke (DEFINE_FIELD "card_table" "uint32_t*")
  ; If (Or (Defined "ALL_FIELDS") (Defined "BACKGROUND_GC"))
  ; Invoke (DEFINE_FIELD "mark_array" "uint32_t*")
  ; Invoke (DEFINE_FIELD "next_sweep_obj" "uint8_t*")
  ; Invoke (DEFINE_FIELD "background_saved_lowest_address" "uint8_t*")
  ; Invoke (DEFINE_FIELD "background_saved_highest_address" "uint8_t*")
  ; If (Or (Defined "ALL_FIELDS") (Not (Defined "USE_REGIONS")))
  ; Invoke (DEFINE_DPTR_FIELD "saved_sweep_ephemeral_seg" "dac_heap_segment")
  ; Invoke (DEFINE_FIELD "saved_sweep_ephemeral_start" "uint8_t*")
  ; Else
  ; Invoke DEFINE_MISSING_FIELD
  ; Invoke DEFINE_MISSING_FIELD
  ; Endif
  ; Else
  ; Invoke DEFINE_MISSING_FIELD
  ; Invoke DEFINE_MISSING_FIELD
  ; Invoke DEFINE_MISSING_FIELD
  ; Invoke DEFINE_MISSING_FIELD
  ; Invoke DEFINE_MISSING_FIELD
  ; Invoke DEFINE_MISSING_FIELD
  ; Endif
  ].

(** ** Configurations *)

(** The three switches, resolved to booleans before assembly.  A switch is
    on exactly when the corresponding macro is defined where the header is
    included. *)
Record Configuration : Type := mkConfiguration
  { fullSchema : bool                    (* ALL_FIELDS *)
  ; backgroundCollectionSupport : bool   (* BACKGROUND_GC *)
  ; regionBasedHeap : bool               (* USE_REGIONS *)
  }.

(** [defined(macro)]: only the three switches are ever defined here. *)
Definition defined (c : Configuration) (macro : string) : bool :=
  if String.eqb macro "ALL_FIELDS" then fullSchema c
  else if String.eqb macro "BACKGROUND_GC" then backgroundCollectionSupport c
  else if String.eqb macro "USE_REGIONS" then regionBasedHeap c
  else false.

Fixpoint eval (c : Configuration) (e : pp_expr) : bool :=
  match e with
  | Defined m => defined c m
  | Not e1 => negb (eval c e1)
  | Or e1 e2 => eval c e1 || eval c e2
  end.

(** ** Conditional inclusion as a stack machine *)

(** An open conditional group.  [enclosing] tells whether the text around
    the group is being kept, [taken] whether a branch of the group has been
    selected already, [in_else] whether its [#else] has been seen. *)
Record group : Type := mkGroup
  { enclosing : bool
  ; taken : bool
  ; in_else : bool
  }.

(** Preprocessor state: the open groups (innermost first), whether the
    current text is kept, and the invocations kept so far (latest first). *)
Record pp_state : Type := mkState
  { groups : list group
  ; live : bool
  ; kept : list invocation
  }.

Definition initial : pp_state := mkState [] true [].

(** One line.  [None] is a preprocessing error ([#else] or [#endif] without
    an open [#if], or a second [#else]). *)
Definition step (c : Configuration) (st : pp_state) (l : line) : option pp_state :=
  match l with
  | Invoke d =>
      Some (mkState (groups st) (live st)
                    (if live st then d :: kept st else kept st))
  | If e =>
      let sel := live st && eval c e in
      Some (mkState (mkGroup (live st) sel false :: groups st) sel (kept st))
  | Else =>
      match groups st with
      | [] => None
      | g :: gs =>
          if in_else g then None
          else Some (mkState (mkGroup (enclosing g) (taken g) true :: gs)
                             (enclosing g && negb (taken g))
                             (kept st))
      end
  | Endif =>
      match groups st with
      | [] => None
      | g :: gs => Some (mkState gs (enclosing g) (kept st))
      end
  end.

Fixpoint run (c : Configuration) (st : pp_state) (ls : list line) : option pp_state :=
  match ls with
  | [] => Some st
  | l :: rest =>
      match step c st l with
      | None => None
      | Some st' => run c st' rest
      end
  end.

(** The whole pass: every group must be closed at the end of the file. *)
Definition preprocess (c : Configuration) (ls : list line) : option (list invocation) :=
  match run c initial ls with
  | Some st =>
      match groups st with
      | [] => Some (rev (kept st))
      | _ :: _ => None
      end
  | None => None
  end.

(** What running a well-nested piece of text does to a state: the open
    groups and the liveness are restored, and the piece's contribution is
    kept when the text around it is live. *)
Definition after (c : Configuration) (st : pp_state) (out : list invocation) : pp_state :=
  mkState (groups st) (live st)
          (if live st then rev out ++ kept st else kept st).

(** ** Field descriptors *)

Inductive Kind : Type :=
| Scalar
| FixedArray
| RemoteDescriptorReference
| Placeholder.

(** One schema slot.  A placeholder carries no name: DEFINE_MISSING_FIELD
    takes no argument.  The extent of an array is the symbolic constant
    written in the header. *)
Record FieldDescriptor : Type := mkDescriptor
  { name : option string
  ; kind : Kind
  ; elementType : option string
  ; extent : option string
  ; referencedSchema : option string
  }.

Definition scalar (n ty : string) : FieldDescriptor :=
  mkDescriptor (Some n) Scalar (Some ty) None None.

Definition fixedArray (n ty len : string) : FieldDescriptor :=
  mkDescriptor (Some n) FixedArray (Some ty) (Some len) None.

Definition remoteReference (n schema : string) : FieldDescriptor :=
  mkDescriptor (Some n) RemoteDescriptorReference None None (Some schema).

Definition placeholder : FieldDescriptor :=
  mkDescriptor None Placeholder None None None.

(** Modelled from the spec: the definitions of the four DEFINE_ macros.
    They are supplied by whichever file includes the header and are not
    part of it; following the data model, a DEFINE_FIELD is a scalar, a
    DEFINE_DPTR_FIELD a reference to another structure's schema, a
    DEFINE_ARRAY_FIELD a fixed array, a DEFINE_MISSING_FIELD a placeholder,
    and every invocation fills exactly one slot. *)
Definition describe (d : invocation) : FieldDescriptor :=
  match d with
  | DEFINE_FIELD n ty => scalar n ty
  | DEFINE_DPTR_FIELD n ty => remoteReference n ty
  | DEFINE_ARRAY_FIELD n ty len => fixedArray n ty len
  | DEFINE_MISSING_FIELD => placeholder
  end.

Definition is_placeholder (d : FieldDescriptor) : bool :=
  match kind d with
  | Placeholder => true
  | _ => false
  end.

Definition is_real (d : FieldDescriptor) : bool := negb (is_placeholder d).

(** The assembled table of the heap-state structure under a configuration. *)
Definition FieldTable (c : Configuration) : option (list FieldDescriptor) :=
  option_map (map describe) (preprocess c gc_typefields).

(** The descriptor at an ordinal, if the table has one there. *)
Definition slot (c : Configuration) (i : nat) : option FieldDescriptor :=
  match FieldTable c with
  | Some t => nth_error t i
  | None => None
  end.

(** Source lines [a] to [b] of the header (numbered from 1, inclusive). *)
Definition source_lines (a b : nat) : list line :=
  firstn (b + 1 - a) (skipn (a - 1) gc_typefields).

(** The descriptors the schema is expected to hold. *)
Definition unconditional_fields : list FieldDescriptor :=
  [ scalar "alloc_allocated" "uint8_t*"
  ; remoteReference "ephemeral_heap_segment" "dac_heap_segment"
  ; remoteReference "finalize_queue" "dac_finalize_queue"
  ; scalar "oom_info" "oom_history"
  ; fixedArray "interesting_data_per_heap" "size_t" "NUM_GC_DATA_POINTS"
  ; fixedArray "compact_reasons_per_heap" "size_t" "MAX_COMPACT_REASONS_COUNT"
  ; fixedArray "expand_mechanisms_per_heap" "size_t" "MAX_EXPAND_MECHANISMS_COUNT"
  ; fixedArray "interesting_mechanism_bits_per_heap" "size_t" "MAX_GC_MECHANISM_BITS_COUNT"
  ; scalar "internal_root_array" "uint8_t*"
  ; scalar "internal_root_array_index" "size_t"
  ; scalar "heap_analyze_success" "BOOL"
  ; scalar "card_table" "uint32_t*"
  ].

Definition background_fields : list FieldDescriptor :=
  [ scalar "mark_array" "uint32_t*"
  ; scalar "next_sweep_obj" "uint8_t*"
  ; scalar "background_saved_lowest_address" "uint8_t*"
  ; scalar "background_saved_highest_address" "uint8_t*"
  ].

Definition region_dependent_fields : list FieldDescriptor :=
  [ remoteReference "saved_sweep_ephemeral_seg" "dac_heap_segment"
  ; scalar "saved_sweep_ephemeral_start" "uint8_t*"
  ].

(** The full schema: every slot real. *)
Definition full_schema : list FieldDescriptor :=
  unconditional_fields ++ background_fields ++ region_dependent_fields.

(** Ordinal of a named field: its position in the full schema. *)
Fixpoint index_of (n : string) (t : list FieldDescriptor) : option nat :=
  match t with
  | [] => None
  | d :: rest =>
      match name d with
      | Some m => if String.eqb m n then Some 0 else option_map S (index_of n rest)
      | None => option_map S (index_of n rest)
      end
  end.

Definition ordinal (n : string) : option nat := index_of n full_schema.

(** ** The header as a tree of conditional groups *)

Inductive item : Type :=
| Decl (d : invocation)
| Cond (e : pp_expr) (thn els : list item).

(** Back to source lines. *)
Fixpoint lines_of_item (i : item) : list line :=
  match i with
  | Decl d => [Invoke d]
  | Cond e thn els =>
      If e :: flat_map lines_of_item thn
        ++ Else :: flat_map lines_of_item els ++ [Endif]
  end.

Definition lines_of (its : list item) : list line := flat_map lines_of_item its.

(** What a group contributes under a configuration. *)
Fixpoint expand (c : Configuration) (i : item) : list invocation :=
  match i with
  | Decl d => [d]
  | Cond e thn els =>
      if eval c e then flat_map (expand c) thn else flat_map (expand c) els
  end.

Definition expand_all (c : Configuration) (its : list item) : list invocation :=
  flat_map (expand c) its.

(** Every conditional group of a tree, at any depth: controlling
    expression, enabled branch, suppressed branch. *)
Fixpoint conditionals (i : item) : list (pp_expr * list item * list item) :=
  match i with
  | Decl _ => []
  | Cond e thn els =>
      (e, thn, els) :: flat_map conditionals thn ++ flat_map conditionals els
  end.

Definition is_decl (i : item) : bool :=
  match i with
  | Decl _ => true
  | Cond _ _ _ => false
  end.

Definition is_missing (i : item) : bool :=
  match i with
  | Decl DEFINE_MISSING_FIELD => true
  | _ => false
  end.

(** Slots a tree hands out: one per declaration of its enabled branches. *)
Fixpoint slots (i : item) : nat :=
  match i with
  | Decl _ => 1
  | Cond _ thn _ => list_sum (map slots thn)
  end.

(** A tree is balanced when the suppressed branch of every group is made of
    DEFINE_MISSING_FIELD only, one for each slot of the enabled branch. *)
Fixpoint balanced (i : item) : bool :=
  match i with
  | Decl _ => true
  | Cond _ thn els =>
      forallb balanced thn
      && forallb is_missing els
      && (List.length els =? list_sum (map slots thn))
  end.

Definition gc_typefields_tree : list item :=
  [ Decl (DEFINE_FIELD "alloc_allocated" "uint8_t*")
  ; Decl (DEFINE_DPTR_FIELD "ephemeral_heap_segment" "dac_heap_segment")
  ; Decl (DEFINE_DPTR_FIELD "finalize_queue" "dac_finalize_queue")
  ; Decl (DEFINE_FIELD "oom_info" "oom_history")
  ; Decl (DEFINE_ARRAY_FIELD "interesting_data_per_heap" "size_t" "NUM_GC_DATA_POINTS")
  ; Decl (DEFINE_ARRAY_FIELD "compact_reasons_per_heap" "size_t" "MAX_COMPACT_REASONS_COUNT")
  ; Decl (DEFINE_ARRAY_FIELD "expand_mechanisms_per_heap" "size_t" "MAX_EXPAND_MECHANISMS_COUNT")
  ; Decl (DEFINE_ARRAY_FIELD "interesting_mechanism_bits_per_heap" "size_t" "MAX_GC_MECHANISM_BITS_COUNT")
  ; Decl (DEFINE_FIELD "internal_root_array" "uint8_t*")
  ; Decl (DEFINE_FIELD "internal_root_array_index" "size_t")
  ; Decl (DEFINE_FIELD "heap_analyze_success" "BOOL")
  ; Decl (DEFINE_FIELD "card_table" "uint32_t*")
  ; Cond (Or (Defined "ALL_FIELDS") (Defined "BACKGROUND_GC"))
      [ Decl (DEFINE_FIELD "mark_array" "uint32_t*")
      ; Decl (DEFINE_FIELD "next_sweep_obj" "uint8_t*")
      ; Decl (DEFINE_FIELD "background_saved_lowest_address" "uint8_t*")
      ; Decl (DEFINE_FIELD "background_saved_highest_address" "uint8_t*")
      ; Cond (Or (Defined "ALL_FIELDS") (Not (Defined "USE_REGIONS")))
          [ Decl (DEFINE_DPTR_FIELD "saved_sweep_ephemeral_seg" "dac_heap_segment")
          ; Decl (DEFINE_FIELD "saved_sweep_ephemeral_start" "uint8_t*")
          ]
          [ Decl DEFINE_MISSING_FIELD
          ; Decl DEFINE_MISSING_FIELD
          ]
      ]
      [ Decl DEFINE_MISSING_FIELD
      ; Decl DEFINE_MISSING_FIELD
      ; Decl DEFINE_MISSING_FIELD
      ; Decl DEFINE_MISSING_FIELD
      ; Decl DEFINE_MISSING_FIELD
      ; Decl DEFINE_MISSING_FIELD
      ]
  ].

(** ** The assembler as the specification words it *)

(** A declaration tagged with the predicate under which it is real. *)
Record Declaration : Type := mkDeclaration
  { guard : Configuration -> bool
  ; real : invocation
  }.

(** The declarations of a tree in source order; the predicate of one is
    the conjunction of the controlling expressions of the groups whose
    enabled branch holds it. *)
Fixpoint declarations (g : Configuration -> bool) (i : item) : list Declaration :=
  match i with
  | Decl d => [mkDeclaration g d]
  | Cond e thn _ =>
      flat_map (declarations (fun c => g c && eval c e)) thn
  end.

Definition declarations_of (its : list item) : list Declaration :=
  flat_map (declarations (fun _ => true)) its.

(** Steps 1 to 4 of the algorithm: in source order, one descriptor per
    declaration, real when the predicate holds and a placeholder otherwise. *)
Definition emit (c : Configuration) (d : Declaration) : FieldDescriptor :=
  if guard d c then describe (real d) else placeholder.

Definition assemble (c : Configuration) (ds : list Declaration) : list FieldDescriptor :=
  map (emit c) ds.

(** For a balanced tree read under a predicate [g]: when [g] holds the
    expansion is what the declarative assembler emits, and when it does not
    the assembler emits placeholders only, one per slot. *)
Definition refines (c : Configuration) (i : item) : Prop :=
  forall g,
    (g c = true ->
       map describe (expand c i) = assemble c (declarations g i))
    /\ (g c = false ->
       assemble c (declarations g i) = repeat placeholder (slots i)).

(** The descriptor found at the ordinal of a named field. *)
Definition slot_of_field (c : Configuration) (n : string) : option FieldDescriptor :=
  match ordinal n with
  | Some i => slot c i
  | None => None
  end.

(** The controlling expression names ALL_FIELDS as its first alternative. *)
Definition all_fields_or (e : pp_expr) : bool :=
  match e with
  | Or (Defined m) _ => String.eqb m "ALL_FIELDS"
  | _ => false
  end.

Definition guard_has_all_fields (l : line) : bool :=
  match l with
  | If e => all_fields_or e
  | _ => true
  end.

(** ** Further notions used to describe the tables *)

(** The table a header assembles to under a configuration. *)
Definition table_of (c : Configuration) (ls : list line) : option (list FieldDescriptor) :=
  option_map (map describe) (preprocess c ls).

(** Number of real descriptors of the heap-state table. *)
Definition real_count (c : Configuration) : nat :=
  match FieldTable c with
  | Some t => List.length (filter is_real t)
  | None => 0
  end.

(** Names of the real descriptors of a table, in order. *)
Definition real_names (t : list FieldDescriptor) : list string :=
  flat_map (fun d =>
              if is_real d
              then match name d with
                   | Some n => [n]
                   | None => []
                   end
              else []) t.

Fixpoint distinct (l : list string) : bool :=
  match l with
  | [] => true
  | x :: rest => negb (existsb (String.eqb x) rest) && distinct rest
  end.

(** [c'] has at least the features of [c] that make fields real:
    ALL_FIELDS and BACKGROUND_GC may be switched on, USE_REGIONS off. *)
Definition enables (c c' : Configuration) : bool :=
  implb (fullSchema c) (fullSchema c')
  && implb (backgroundCollectionSupport c) (backgroundCollectionSupport c')
  && implb (regionBasedHeap c') (regionBasedHeap c).

(** The header with one line removed (lines counted from 0). *)
Definition delete_line (k : nat) (ls : list line) : list line :=
  firstn k ls ++ skipn (S k) ls.

(** * Properties *)

(** ** The stack machine agrees with the tree reading *)

Lemma item_nested_ind (P : item -> Prop) :
  (forall d, P (Decl d)) ->
  (forall e thn els, Forall P thn -> Forall P els -> P (Cond e thn els)) ->
  forall i, P i.
Proof.
  intros HDecl HCond.
  fix IH 1.
  intros [d | e thn els].
  - apply HDecl.
  - apply HCond.
    + induction thn as [| x rest IHrest]; constructor; [apply IH | exact IHrest].
    + induction els as [| x rest IHrest]; constructor; [apply IH | exact IHrest].
Qed.

Lemma run_app (c : Configuration) (l1 l2 : list line) :
  forall st,
    run c st (l1 ++ l2) =
    match run c st l1 with
    | Some st' => run c st' l2
    | None => None
    end.
Proof.
  induction l1 as [| l rest IH]; intros st; simpl.
  - reflexivity.
  - destruct (step c st l) as [st' |]; [apply IH | reflexivity].
Qed.

Lemma run_items (c : Configuration) (its : list item) :
  Forall (fun i => forall st,
            run c st (lines_of_item i) = Some (after c st (expand c i))) its ->
  forall st, run c st (lines_of its) = Some (after c st (expand_all c its)).
Proof.
  unfold lines_of, expand_all, after.
  induction 1 as [| i rest Hi _ IH]; intros [gs lv k]; simpl.
  - destruct lv; reflexivity.
  - rewrite run_app, Hi. unfold after. simpl. rewrite IH. simpl.
    destruct lv; [| reflexivity].
    now rewrite rev_app_distr, app_assoc.
Qed.

Lemma run_item (c : Configuration) (i : item) :
  forall st, run c st (lines_of_item i) = Some (after c st (expand c i)).
Proof.
  induction i as [d | e thn els IHthn IHels] using item_nested_ind;
    intros [gs lv k].
  - unfold after; simpl. destruct lv; reflexivity.
  - pose proof (run_items c thn IHthn) as Hthn.
    pose proof (run_items c els IHels) as Hels.
    unfold lines_of in Hthn, Hels.
    cbn [lines_of_item run step groups live kept].
    rewrite run_app, Hthn. unfold after at 1. cbn [groups live kept run step in_else enclosing taken].
    rewrite run_app, Hels. unfold after at 1. cbn [groups live kept run step in_else enclosing taken].
    unfold after, expand_all. cbn [groups live kept expand].
    destruct lv, (eval c e); reflexivity.
Qed.

(** Preprocessing the text of a tree succeeds and yields its expansion. *)
Lemma preprocess_lines_of (c : Configuration) (its : list item) :
  preprocess c (lines_of its) = Some (expand_all c its).
Proof.
  unfold preprocess.
  rewrite run_items.
  - unfold after, initial; simpl. now rewrite app_nil_r, rev_involutive.
  - apply Forall_forall. intros i _. apply run_item.
Qed.

Lemma tree_is_source : lines_of gc_typefields_tree = gc_typefields.
Proof. reflexivity. Qed.

Lemma preprocess_gc_typefields (c : Configuration) :
  preprocess c gc_typefields = Some (expand_all c gc_typefields_tree).
Proof. rewrite <- tree_is_source. apply preprocess_lines_of. Qed.

(** ** Balanced trees are ordinal-stable *)

Lemma expand_missing (c : Configuration) (els : list item) :
  forallb is_missing els = true ->
  expand_all c els = repeat DEFINE_MISSING_FIELD (List.length els).
Proof.
  unfold expand_all.
  induction els as [| x rest IH]; simpl; intros H; [reflexivity |].
  apply andb_true_iff in H as [Hx Hrest].
  destruct x as [[] |]; try discriminate.
  simpl. now rewrite IH.
Qed.

Lemma assemble_app (c : Configuration) (d1 d2 : list Declaration) :
  assemble c (d1 ++ d2) = assemble c d1 ++ assemble c d2.
Proof. apply map_app. Qed.

Lemma refines_items (c : Configuration) (its : list item) :
  Forall (refines c) its ->
  forall g,
    (g c = true ->
       map describe (expand_all c its) = assemble c (flat_map (declarations g) its))
    /\ (g c = false ->
       assemble c (flat_map (declarations g) its)
       = repeat placeholder (list_sum (map slots its))).
Proof.
  unfold expand_all.
  induction 1 as [| i rest Hi _ IH]; intros g; simpl.
  - split; reflexivity.
  - destruct (Hi g) as [Hi1 Hi0], (IH g) as [IH1 IH0].
    rewrite assemble_app, map_app, repeat_app.
    split; intros Hg.
    + now rewrite Hi1, IH1.
    + now rewrite Hi0, IH0.
Qed.

Lemma balanced_refines (c : Configuration) (i : item) :
  balanced i = true -> refines c i.
Proof.
  induction i as [d | e thn els IHthn _] using item_nested_ind; intros Hb g.
  - simpl. unfold emit; simpl. split; intros ->; reflexivity.
  - cbn [balanced] in Hb.
    apply andb_true_iff in Hb as [Hb Hlen].
    apply andb_true_iff in Hb as [Hthn Hels].
    apply Nat.eqb_eq in Hlen.
    assert (Forall (refines c) thn) as Hall.
    { rewrite forallb_forall in Hthn. rewrite Forall_forall in IHthn |- *.
      intros x Hx. apply IHthn; auto. }
    destruct (refines_items c thn Hall (fun c' => g c' && eval c' e)) as [H1 H0].
    cbn [declarations slots expand].
    split; intros Hg.
    + destruct (eval c e) eqn:He.
      * apply H1. now rewrite Hg, ?He.
      * rewrite H0 by now rewrite Hg, ?He.
        fold (expand_all c els). rewrite (expand_missing c els Hels), Hlen.
        now rewrite map_repeat.
    + apply H0. now rewrite Hg.
Qed.

(** A balanced header assembles, under every configuration, to exactly
    what the declarative assembler produces from its declarations. *)
Lemma balanced_assemble (c : Configuration) (its : list item) :
  forallb balanced its = true ->
  option_map (map describe) (preprocess c (lines_of its))
  = Some (assemble c (declarations_of its)).
Proof.
  intros Hb. rewrite preprocess_lines_of. simpl. f_equal.
  apply (refines_items c its).
  - rewrite forallb_forall in Hb. apply Forall_forall.
    intros x Hx. apply balanced_refines. auto.
  - reflexivity.
Qed.

Lemma declarations_length (g : Configuration -> bool) (i : item) :
  List.length (declarations g i) = slots i.
Proof.
  revert g.
  induction i as [d | e thn els IHthn _] using item_nested_ind; intros g.
  - reflexivity.
  - cbn [declarations slots].
    generalize (fun c => g c && eval c e). clear g.
    induction IHthn as [| x rest Hx _ IH]; intros g; simpl.
    + reflexivity.
    + now rewrite length_app, Hx, IH.
Qed.

(** Ordinal stability by construction: a balanced header hands out the
    same number of slots under every configuration. *)
Lemma balanced_slot_count (c : Configuration) (its : list item) :
  forallb balanced its = true ->
  exists t,
    preprocess c (lines_of its) = Some t
    /\ List.length t = list_sum (map slots its).
Proof.
  intros Hb. pose proof (balanced_assemble c its Hb) as H.
  rewrite preprocess_lines_of in H |- *. simpl in H. injection H as H.
  eexists; split; [reflexivity |].
  apply (f_equal (@List.length _)) in H.
  unfold assemble, declarations_of in H. rewrite !length_map in H.
  rewrite H. clear.
  induction its as [| i rest IH]; simpl; [reflexivity |].
  now rewrite length_app, declarations_length, IH.
Qed.

(** ** The table of the heap-state structure *)

Lemma gc_typefields_balanced : forallb balanced gc_typefields_tree = true.
Proof. reflexivity. Qed.

(** Closed form of the table, by running the machine on the header. *)
Lemma FieldTable_closed_form (c : Configuration) :
  FieldTable c =
  Some (unconditional_fields ++
        if fullSchema c || backgroundCollectionSupport c
        then background_fields ++
             (if fullSchema c || negb (regionBasedHeap c)
              then region_dependent_fields
              else repeat placeholder 2)
        else repeat placeholder 6).
Proof. destruct c as [[] [] []]; reflexivity. Qed.

Lemma FieldTable_length (c : Configuration) :
  exists t, FieldTable c = Some t /\ List.length t = 18.
Proof.
  rewrite FieldTable_closed_form. eexists; split; [reflexivity |].
  destruct c as [[] [] []]; reflexivity.
Qed.

(** A slot holds the descriptor of the full schema or a placeholder. *)
Lemma slot_real_or_placeholder (c : Configuration) (i : nat) (d : FieldDescriptor) :
  slot c i = Some d ->
  is_real d = true ->
  nth_error full_schema i = Some d.
Proof.
  unfold slot. rewrite FieldTable_closed_form.
  destruct c as [[] [] []]; cbn -[is_real];
    do 18 (destruct i as [| i]; [cbn -[is_real]; intros [= <-]; try reflexivity; discriminate |]);
    destruct i; discriminate.
Qed.

Lemma full_schema_ordinal (i : nat) (d : FieldDescriptor) :
  nth_error full_schema i = Some d ->
  exists n, name d = Some n /\ ordinal n = Some i.
Proof.
  do 18 (destruct i as [| i];
         [intros [= <-]; eexists; split; reflexivity |]).
  destruct i; discriminate.
Qed.

Lemma Forall2_assemble (c : Configuration) (ds : list Declaration) :
  Forall2 (fun d x =>
             (guard d c = true /\ x = describe (real d))
             \/ (guard d c = false /\ x = placeholder))
          ds (assemble c ds).
Proof.
  induction ds as [| d rest IH]; simpl; constructor; [| exact IH].
  unfold emit. destruct (guard d c); [left | right]; split; reflexivity.
Qed.

(** A guard of the form [defined(ALL_FIELDS) || ...] holds as soon as
    ALL_FIELDS is defined. *)
Lemma all_fields_or_holds (c : Configuration) (e : pp_expr) :
  all_fields_or e = true -> fullSchema c = true -> eval c e = true.
Proof.
  destruct e as [| | [m | |] e2]; try discriminate.
  simpl. intros Hm Hc. apply String.eqb_eq in Hm. subst m.
  unfold defined. simpl. now rewrite Hc.
Qed.

(** ** Claims *)

(** C1 (ordinal invariance): under every configuration of the three
    switches the header assembles to a table, and its length is the same,
    namely the number of unconditional declarations (12) plus the 4
    background slots plus the 2 region/legacy slots, that is 18. *)
Theorem ordinal_invariance (c : Configuration) :
  exists t,
    FieldTable c = Some t
    /\ List.length t
       = List.length (filter is_decl gc_typefields_tree)
         + List.length background_fields
         + List.length region_dependent_fields
    /\ List.length (filter is_decl gc_typefields_tree) = 12
    /\ List.length background_fields = 4
    /\ List.length region_dependent_fields = 2
    /\ List.length t = 18.
Proof.
  destruct (FieldTable_length c) as (t & Ht & Hlen).
  exists t. rewrite Hlen. repeat split; try reflexivity. exact Ht.
Qed.

(** C7 (scenario 1): with ALL_FIELDS and BACKGROUND_GC defined and
    USE_REGIONS undefined, the table holds the four background fields and
    the two legacy-segment fields as real descriptors, after the
    unconditional ones. *)
Theorem scenario1_background_and_segment_fields_real :
  FieldTable (mkConfiguration true true false)
  = Some (unconditional_fields ++ background_fields ++ region_dependent_fields)
  /\ forallb is_real (background_fields ++ region_dependent_fields) = true
  /\ slot_of_field (mkConfiguration true true false) "mark_array"
     = Some (scalar "mark_array" "uint32_t*")
  /\ slot_of_field (mkConfiguration true true false) "next_sweep_obj"
     = Some (scalar "next_sweep_obj" "uint8_t*")
  /\ slot_of_field (mkConfiguration true true false) "background_saved_lowest_address"
     = Some (scalar "background_saved_lowest_address" "uint8_t*")
  /\ slot_of_field (mkConfiguration true true false) "background_saved_highest_address"
     = Some (scalar "background_saved_highest_address" "uint8_t*")
  /\ slot_of_field (mkConfiguration true true false) "saved_sweep_ephemeral_seg"
     = Some (remoteReference "saved_sweep_ephemeral_seg" "dac_heap_segment")
  /\ slot_of_field (mkConfiguration true true false) "saved_sweep_ephemeral_start"
     = Some (scalar "saved_sweep_ephemeral_start" "uint8_t*").
Proof. repeat split; reflexivity. Qed.

(** C8: with ALL_FIELDS defined the other two switches do not matter: the
    table is the full schema, 18 real descriptors and no placeholder.  Every
    [#if] of the header has the form [defined(ALL_FIELDS) || ...]. *)
Theorem full_schema_ignores_other_switches (b r : bool) :
  FieldTable (mkConfiguration true b r) = Some full_schema
  /\ List.length full_schema = 18
  /\ forallb is_real full_schema = true
  /\ existsb is_placeholder full_schema = false
  /\ forallb guard_has_all_fields gc_typefields = true.
Proof. destruct b, r; repeat split; reflexivity. Qed.

(** C9 (unconditional prefix): under every configuration ordinals 0 to 11
    hold the same twelve real descriptors, alloc_allocated to card_table,
    with their names, kinds, element types and extents; the switches only
    change the six slots that follow. *)
Theorem unconditional_prefix_stable (c : Configuration) :
  exists tail,
    FieldTable c = Some (unconditional_fields ++ tail)
    /\ List.length unconditional_fields = 12
    /\ List.length tail = 6
    /\ forallb is_real unconditional_fields = true
    /\ map (slot c) (seq 0 12) = map Some unconditional_fields
    /\ unconditional_fields
       = map describe (firstn 12 (expand_all c gc_typefields_tree)).
Proof.
  rewrite FieldTable_closed_form. eexists. split; [reflexivity |].
  split; [reflexivity |].
  split; [destruct c as [[] [] []]; reflexivity |].
  split; [reflexivity |].
  split; destruct c as [[] [] []]; vm_compute; reflexivity.
Qed.

(** C10: with ALL_FIELDS and BACKGROUND_GC both undefined, USE_REGIONS
    has no effect: both tables are the unconditional fields followed by
    six placeholders. *)
Theorem regions_irrelevant_without_background (r r' : bool) :
  FieldTable (mkConfiguration false false r)
  = FieldTable (mkConfiguration false false r')
  /\ FieldTable (mkConfiguration false false r)
     = Some (unconditional_fields ++ repeat placeholder 6).
Proof. rewrite !FieldTable_closed_form. split; reflexivity. Qed.

(** C2 as stated fails: with all three macros defined, the slots of
    saved_sweep_ephemeral_seg and saved_sweep_ephemeral_start are not
    placeholders. *)
Lemma scenario2_region_fields_not_placeholders :
  ~ ((exists t1 t2,
        FieldTable (mkConfiguration true true false) = Some t1
        /\ FieldTable (mkConfiguration true true true) = Some t2
        /\ List.length t2 = List.length t1)
     /\ slot_of_field (mkConfiguration true true true) "saved_sweep_ephemeral_seg"
        = Some placeholder
     /\ slot_of_field (mkConfiguration true true true) "saved_sweep_ephemeral_start"
        = Some placeholder).
Proof. intros (_ & H & _). vm_compute in H. discriminate H. Qed.

(** C2 (amended): with ALL_FIELDS, BACKGROUND_GC and USE_REGIONS all
    defined, the table has the slot count of the configuration without
    USE_REGIONS, and the two region-dependent fields are real descriptors
    (the inner guard is [defined(ALL_FIELDS) || !defined(USE_REGIONS)]).
    They are placeholders, at the same slot count, when BACKGROUND_GC and
    USE_REGIONS are defined and ALL_FIELDS is not. *)
Theorem scenario2_region_fields_follow_inner_guard :
  (exists t1 t2,
      FieldTable (mkConfiguration true true false) = Some t1
      /\ FieldTable (mkConfiguration true true true) = Some t2
      /\ List.length t2 = List.length t1)
  /\ slot_of_field (mkConfiguration true true true) "saved_sweep_ephemeral_seg"
     = Some (remoteReference "saved_sweep_ephemeral_seg" "dac_heap_segment")
  /\ slot_of_field (mkConfiguration true true true) "saved_sweep_ephemeral_start"
     = Some (scalar "saved_sweep_ephemeral_start" "uint8_t*")
  /\ (exists t1 t3,
      FieldTable (mkConfiguration true true false) = Some t1
      /\ FieldTable (mkConfiguration false true true) = Some t3
      /\ List.length t3 = List.length t1)
  /\ slot_of_field (mkConfiguration false true true) "saved_sweep_ephemeral_seg"
     = Some placeholder
  /\ slot_of_field (mkConfiguration false true true) "saved_sweep_ephemeral_start"
     = Some placeholder
  /\ eval (mkConfiguration true true true)
          (Or (Defined "ALL_FIELDS") (Not (Defined "USE_REGIONS"))) = true
  /\ In (If (Or (Defined "ALL_FIELDS") (Not (Defined "USE_REGIONS"))))
        (source_lines 18 18).
Proof.
  split; [do 2 eexists; rewrite !FieldTable_closed_form; repeat split |].
  split; [vm_compute; reflexivity |].
  split; [vm_compute; reflexivity |].
  split; [do 2 eexists; rewrite !FieldTable_closed_form; repeat split |].
  split; [vm_compute; reflexivity |].
  split; [vm_compute; reflexivity |].
  split; [reflexivity | left; reflexivity].
Qed.

(** C3 as stated fails: with ALL_FIELDS defined and BACKGROUND_GC
    undefined, the slot of mark_array is not a placeholder. *)
Lemma scenario3_background_fields_not_placeholders :
  ~ (forall r,
       Forall (fun n => slot_of_field (mkConfiguration true false r) n = Some placeholder)
              [ "mark_array"; "next_sweep_obj"
              ; "background_saved_lowest_address"
              ; "background_saved_highest_address"
              ; "saved_sweep_ephemeral_seg"; "saved_sweep_ephemeral_start" ]
       /\ (forall a r', exists t t',
             FieldTable (mkConfiguration true false r) = Some t
             /\ FieldTable (mkConfiguration a true r') = Some t'
             /\ List.length t = List.length t')).
Proof.
  intros H. destruct (H false) as [Hslots _].
  apply Forall_inv in Hslots. vm_compute in Hslots. discriminate Hslots.
Qed.

(** C3 (amended): with ALL_FIELDS and BACKGROUND_GC both undefined,
    whatever USE_REGIONS is, the four background fields and the nested two
    are all placeholders, and the slot count is that of the
    background-enabled configurations.  With ALL_FIELDS defined and
    BACKGROUND_GC undefined the six fields are real (the outer guard is
    [defined(ALL_FIELDS) || defined(BACKGROUND_GC)]), at the same count. *)
Theorem scenario3_placeholders_need_both_undefined (r : bool) :
  Forall (fun n => slot_of_field (mkConfiguration false false r) n = Some placeholder)
         [ "mark_array"; "next_sweep_obj"
         ; "background_saved_lowest_address"
         ; "background_saved_highest_address"
         ; "saved_sweep_ephemeral_seg"; "saved_sweep_ephemeral_start" ]
  /\ (forall a r', exists t t',
        FieldTable (mkConfiguration false false r) = Some t
        /\ FieldTable (mkConfiguration a true r') = Some t'
        /\ List.length t = List.length t')
  /\ FieldTable (mkConfiguration true false r) = Some full_schema
  /\ forallb is_real full_schema = true
  /\ (forall a r', exists t',
        FieldTable (mkConfiguration a true r') = Some t'
        /\ List.length full_schema = List.length t').
Proof.
  split; [destruct r; repeat constructor |].
  split.
  { intros a r'. do 2 eexists. rewrite !FieldTable_closed_form.
    split; [reflexivity |]. split; [reflexivity |].
    destruct a, r'; reflexivity. }
  split; [destruct r; reflexivity |].
  split; [reflexivity |].
  intros a r'. eexists. rewrite FieldTable_closed_form.
  split; [reflexivity |]. destruct a, r'; reflexivity.
Qed.

(** C4 (nested slot balance): a conditional group whose guard fails
    emits, through the preprocessor, exactly as many placeholders as it
    emits descriptors when the guard holds, at either depth.  The outer
    group (lines 13 to 32, guard [defined(ALL_FIELDS) ||
    defined(BACKGROUND_GC)]) yields 6 slots under every configuration: the
    4 background fields followed by the 2 slots of the nested group when
    its guard holds, and 6 placeholders when it does not.  The nested group
    (lines 18 to 24, guard [defined(ALL_FIELDS) || !defined(USE_REGIONS)])
    yields 2 slots: its 2 fields, or 2 placeholders.  Inside the suppressed
    outer block the nested group emits nothing, even when its own guard
    holds, so the 6 placeholders of the outer [#else] are all the block
    contributes. *)
Theorem nested_conditional_slot_balance (c : Configuration) :
  (* the guards written on lines 13 and 18, and what they evaluate to *)
  source_lines 13 13 = [If (Or (Defined "ALL_FIELDS") (Defined "BACKGROUND_GC"))]
  /\ source_lines 18 18
     = [If (Or (Defined "ALL_FIELDS") (Not (Defined "USE_REGIONS")))]
  /\ eval c (Or (Defined "ALL_FIELDS") (Defined "BACKGROUND_GC"))
     = fullSchema c || backgroundCollectionSupport c
  /\ eval c (Or (Defined "ALL_FIELDS") (Not (Defined "USE_REGIONS")))
     = fullSchema c || negb (regionBasedHeap c)
  (* the whole outer group, run by the preprocessor *)
  /\ table_of c (source_lines 13 32)
     = Some (if fullSchema c || backgroundCollectionSupport c
             then background_fields
                  ++ (if fullSchema c || negb (regionBasedHeap c)
                      then region_dependent_fields
                      else repeat placeholder 2)
             else repeat placeholder 6)
  (* the whole nested group, run on its own *)
  /\ table_of c (source_lines 18 24)
     = Some (if fullSchema c || negb (regionBasedHeap c)
             then region_dependent_fields
             else repeat placeholder 2)
  (* the slot counts do not depend on the configuration *)
  /\ (forall c', exists t t',
        preprocess c (source_lines 13 32) = Some t
        /\ preprocess c' (source_lines 13 32) = Some t'
        /\ List.length t = 6 /\ List.length t' = 6)
  /\ (forall c', exists t t',
        preprocess c (source_lines 18 24) = Some t
        /\ preprocess c' (source_lines 18 24) = Some t'
        /\ List.length t = 2 /\ List.length t' = 2)
  (* the nested group inside suppressed text emits nothing *)
  /\ (forall gs k,
        run c (mkState gs false k) (source_lines 18 24)
        = Some (mkState gs false k))
  /\ eval (mkConfiguration false false false)
          (Or (Defined "ALL_FIELDS") (Not (Defined "USE_REGIONS"))) = true
  /\ run (mkConfiguration false false false) initial (source_lines 13 25)
     = Some (mkState [mkGroup true false true] true [])
  /\ run (mkConfiguration false false true) initial (source_lines 13 25)
     = Some (mkState [mkGroup true false true] true [])
  /\ preprocess (mkConfiguration false false false) (source_lines 13 32)
     = Some (repeat DEFINE_MISSING_FIELD 6)
  /\ preprocess (mkConfiguration false false true) (source_lines 13 32)
     = Some (repeat DEFINE_MISSING_FIELD 6)
  (* every group of the header, with its guard, through the preprocessor *)
  /\ lines_of gc_typefields_tree = gc_typefields
  /\ map (fun g : pp_expr * list item * list item => fst (fst g))
         (flat_map conditionals gc_typefields_tree)
     = [ Or (Defined "ALL_FIELDS") (Defined "BACKGROUND_GC")
       ; Or (Defined "ALL_FIELDS") (Not (Defined "USE_REGIONS")) ]
  /\ Forall (fun g : pp_expr * list item * list item =>
               let '(e, thn, els) := g in
               exists t,
                 preprocess c (lines_of thn) = Some t
                 /\ preprocess c (lines_of els)
                    = Some (repeat DEFINE_MISSING_FIELD (List.length t))
                 /\ preprocess c (lines_of_item (Cond e thn els))
                    = Some (if eval c e
                            then t
                            else repeat DEFINE_MISSING_FIELD (List.length t))
                 /\ expand_all c thn = t
                 /\ expand_all c els
                    = repeat DEFINE_MISSING_FIELD (List.length t))
            (flat_map conditionals gc_typefields_tree)
  /\ List.length (flat_map conditionals gc_typefields_tree) = 2
  (* the branches one by one *)
  /\ preprocess c (source_lines 26 31) = Some (repeat DEFINE_MISSING_FIELD 6)
  /\ (exists t, preprocess c (source_lines 14 24) = Some t /\ List.length t = 6)
  /\ (exists t, preprocess c (source_lines 14 17) = Some t
                /\ List.length t = 4
                /\ forallb is_real (map describe t) = true)
  /\ (exists t, preprocess c (source_lines 18 24) = Some t /\ List.length t = 2)
  /\ preprocess c (source_lines 22 23) = Some (repeat DEFINE_MISSING_FIELD 2)
  /\ (exists t, preprocess c (source_lines 19 20) = Some t
                /\ List.length t = 2
                /\ forallb is_real (map describe t) = true).
Proof.
  split; [reflexivity |].
  split; [reflexivity |].
  split; [destruct c as [[] [] []]; reflexivity |].
  split; [destruct c as [[] [] []]; reflexivity |].
  split; [destruct c as [[] [] []]; vm_compute; reflexivity |].
  split; [destruct c as [[] [] []]; vm_compute; reflexivity |].
  split.
  { intros [[] [] []]; destruct c as [[] [] []]; vm_compute;
      do 2 eexists; repeat split; reflexivity. }
  split.
  { intros [[] [] []]; destruct c as [[] [] []]; vm_compute;
      do 2 eexists; repeat split; reflexivity. }
  split; [intros gs k; destruct c as [[] [] []]; reflexivity |].
  split; [reflexivity |].
  split; [vm_compute; reflexivity |].
  split; [vm_compute; reflexivity |].
  split; [vm_compute; reflexivity |].
  split; [vm_compute; reflexivity |].
  split; [reflexivity |].
  split; [reflexivity |].
  split.
  { set (l := flat_map conditionals gc_typefields_tree).
    vm_compute in l. subst l.
    destruct c as [[] [] []];
      repeat (constructor;
              [cbv beta iota; vm_compute; eexists;
               split; [reflexivity |]; repeat split; reflexivity |]);
      constructor. }
  split; [reflexivity |].
  split; [vm_compute; reflexivity |].
  split; [destruct c as [[] [] []]; vm_compute; eexists; split; reflexivity |].
  split; [vm_compute; eexists; repeat split; reflexivity |].
  split; [destruct c as [[] [] []]; vm_compute; eexists; split; reflexivity |].
  split; [vm_compute; reflexivity |].
  vm_compute; eexists; repeat split; reflexivity.
Qed.

(** C5 (placeholder completeness): under every configuration the table
    matches the declarations of the header one for one, in source order:
    each declaration contributes exactly one descriptor, its real
    descriptor when its guarding predicate holds and a placeholder when it
    does not.  In particular this holds for the six guarded declarations. *)
Theorem placeholder_completeness (c : Configuration) :
  exists t,
    FieldTable c = Some t
    /\ Forall2 (fun d x =>
                  (guard d c = true /\ x = describe (real d))
                  \/ (guard d c = false /\ x = placeholder))
               (declarations_of gc_typefields_tree) t
    /\ map (fun d => describe (real d)) (declarations_of gc_typefields_tree)
       = full_schema
    /\ map (fun d => guard d c) (declarations_of gc_typefields_tree)
       = repeat true 12
         ++ repeat (fullSchema c || backgroundCollectionSupport c) 4
         ++ repeat ((fullSchema c || backgroundCollectionSupport c)
                    && (fullSchema c || negb (regionBasedHeap c))) 2.
Proof.
  exists (assemble c (declarations_of gc_typefields_tree)).
  split.
  - unfold FieldTable. rewrite <- tree_is_source.
    apply balanced_assemble, gc_typefields_balanced.
  - split; [apply Forall2_assemble |].
    split; reflexivity.
Qed.

(** C6 (positional identity): a field that is real in the tables of two
    configurations sits at the same ordinal in both, with the same
    descriptor. *)
Theorem positional_identity (A B : Configuration) (i j : nat)
    (dA dB : FieldDescriptor) :
  slot A i = Some dA ->
  slot B j = Some dB ->
  is_real dA = true ->
  is_real dB = true ->
  name dA = name dB ->
  i = j /\ dA = dB.
Proof.
  intros HA HB RA RB Hname.
  apply slot_real_or_placeholder in HA; [| exact RA].
  apply slot_real_or_placeholder in HB; [| exact RB].
  destruct (full_schema_ordinal i dA HA) as (n & Hn & Hi).
  destruct (full_schema_ordinal j dB HB) as (m & Hm & Hj).
  assert (n = m) as -> by congruence.
  assert (i = j) as -> by congruence.
  split; [reflexivity | congruence].
Qed.

Lemma positional_identity_witness :
  slot (mkConfiguration true false true) 16
  = Some (remoteReference "saved_sweep_ephemeral_seg" "dac_heap_segment")
  /\ slot (mkConfiguration false true false) 16
     = Some (remoteReference "saved_sweep_ephemeral_seg" "dac_heap_segment")
  /\ 16 = 16
  /\ remoteReference "saved_sweep_ephemeral_seg" "dac_heap_segment"
     = remoteReference "saved_sweep_ephemeral_seg" "dac_heap_segment".
Proof.
  split; [vm_compute; reflexivity |].
  split; [vm_compute; reflexivity |].
  apply (positional_identity
           (mkConfiguration true false true) (mkConfiguration false true false)
           16 16
           (remoteReference "saved_sweep_ephemeral_seg" "dac_heap_segment")
           (remoteReference "saved_sweep_ephemeral_seg" "dac_heap_segment"));
    vm_compute; reflexivity.
Defined.

(** ** Further properties of the header *)

Lemma distinct_sound (l : list string) : distinct l = true -> NoDup l.
Proof.
  induction l as [| x rest IH]; simpl; intros H; constructor.
  - apply andb_true_iff in H as [H _].
    intros Hin. apply negb_true_iff in H.
    assert (existsb (String.eqb x) rest = true) as E.
    { apply existsb_exists. exists x. split; [exact Hin | apply String.eqb_refl]. }
    congruence.
  - apply andb_true_iff in H as [_ H]. auto.
Qed.

Lemma FieldTable_full (b r : bool) :
  FieldTable (mkConfiguration true b r) = Some full_schema.
Proof. rewrite FieldTable_closed_form. reflexivity. Qed.

(** X1: a consumer built with ALL_FIELDS sees every field of every target:
    whatever the target's configuration, a slot that is real there holds
    the same descriptor at the same ordinal of the ALL_FIELDS table. *)
Theorem all_fields_table_covers_every_configuration
    (c : Configuration) (b r : bool) (i : nat) (d : FieldDescriptor) :
  slot c i = Some d ->
  is_real d = true ->
  slot (mkConfiguration true b r) i = Some d.
Proof.
  intros Hs Hr. unfold slot. rewrite FieldTable_full.
  now apply (slot_real_or_placeholder c).
Qed.

Lemma all_fields_table_covers_every_configuration_witness :
  slot (mkConfiguration false true true) 13 = Some (scalar "next_sweep_obj" "uint8_t*")
  /\ slot (mkConfiguration true false true) 13 = Some (scalar "next_sweep_obj" "uint8_t*").
Proof.
  split; [vm_compute; reflexivity |].
  apply (all_fields_table_covers_every_configuration
           (mkConfiguration false true true) false true 13
           (scalar "next_sweep_obj" "uint8_t*"));
    vm_compute; reflexivity.
Defined.

(** X2: exactly when the conditional fields are real.  The four
    background fields are real if and only if ALL_FIELDS or BACKGROUND_GC
    is defined; the two legacy-segment fields are real if and only if
    ALL_FIELDS is defined, or BACKGROUND_GC is defined and USE_REGIONS is
    not.  Otherwise their slots hold placeholders. *)
Theorem conditional_fields_real_exactly_when (c : Configuration) :
  map (fun d => match name d with
                | Some n => slot_of_field c n
                | None => None
                end) background_fields
  = map (fun d => Some (if fullSchema c || backgroundCollectionSupport c
                        then d else placeholder)) background_fields
  /\ map (fun d => match name d with
                   | Some n => slot_of_field c n
                   | None => None
                   end) region_dependent_fields
     = map (fun d => Some (if fullSchema c
                              || (backgroundCollectionSupport c
                                  && negb (regionBasedHeap c))
                           then d else placeholder)) region_dependent_fields.
Proof. destruct c as [[] [] []]; vm_compute; split; reflexivity. Qed.

(** X3: the real descriptors always come first.  Under every
    configuration the table is a prefix of the full schema followed by
    placeholders only, and the prefix has 12, 16 or 18 entries. *)
Theorem real_fields_form_a_prefix (c : Configuration) :
  FieldTable c
  = Some (firstn (real_count c) full_schema
          ++ repeat placeholder (18 - real_count c))
  /\ real_count c
     = 12 + (if fullSchema c || backgroundCollectionSupport c
             then 4 + (if fullSchema c || negb (regionBasedHeap c) then 2 else 0)
             else 0).
Proof. destruct c as [[] [] []]; vm_compute; split; reflexivity. Qed.

(** X4: under every configuration the real descriptors of the table
    have pairwise distinct names. *)
Theorem real_field_names_distinct (c : Configuration) :
  exists t, FieldTable c = Some t /\ NoDup (real_names t).
Proof.
  destruct c as [[] [] []]; vm_compute; eexists;
    (split; [reflexivity | apply distinct_sound; vm_compute; reflexivity]).
Qed.

(** X5: switching ALL_FIELDS or BACKGROUND_GC on, or USE_REGIONS off,
    never loses a field: a slot that is real before is the same real
    descriptor afterwards. *)
Theorem enabling_features_keeps_real_fields
    (c c' : Configuration) (i : nat) (d : FieldDescriptor) :
  enables c c' = true ->
  slot c i = Some d ->
  is_real d = true ->
  slot c' i = Some d.
Proof.
  intros He Hs Hr.
  pose proof (slot_real_or_placeholder c i d Hs Hr) as Hfull.
  revert He Hs Hr Hfull. unfold slot. rewrite !FieldTable_closed_form.
  destruct c as [[] [] []], c' as [[] [] []]; try discriminate;
    intros _ Hs Hr Hfull; try exact Hfull; try exact Hs;
    cbn -[is_real] in Hs |- *;
    do 18 (destruct i as [| i];
           [first [exact Hs
                  | injection Hs as <-; discriminate Hr] |]);
    destruct i; discriminate Hs.
Qed.

Lemma enabling_features_keeps_real_fields_witness :
  slot (mkConfiguration false true true) 15
  = Some (scalar "background_saved_highest_address" "uint8_t*")
  /\ slot (mkConfiguration false true false) 15
     = Some (scalar "background_saved_highest_address" "uint8_t*").
Proof.
  split; [vm_compute; reflexivity |].
  apply (enabling_features_keeps_real_fields
           (mkConfiguration false true true) (mkConfiguration false true false)
           15 (scalar "background_saved_highest_address" "uint8_t*"));
    vm_compute; reflexivity.
Defined.

(** X6: what each switch can change.  USE_REGIONS changes the table
    exactly when BACKGROUND_GC is defined and ALL_FIELDS is not, and then
    only ordinals 16 and 17; BACKGROUND_GC changes the table exactly when
    ALL_FIELDS is not defined. *)
Theorem switch_influence (a b r : bool) :
  (FieldTable (mkConfiguration a b true) = FieldTable (mkConfiguration a b false)
   <-> a || negb b = true)
  /\ map (slot (mkConfiguration a b true)) (seq 0 16)
     = map (slot (mkConfiguration a b false)) (seq 0 16)
  /\ (FieldTable (mkConfiguration a true r) = FieldTable (mkConfiguration a false r)
      <-> a = true).
Proof.
  rewrite !FieldTable_closed_form.
  destruct a, b, r; vm_compute;
    (split; [split; intros H; first [reflexivity | discriminate H] |]);
    (split; [reflexivity |]);
    split; intros H; first [reflexivity | discriminate H].
Qed.

(** X7: the eight configurations yield exactly three tables, told apart
    by the number of real fields: two configurations assemble to the same
    table if and only if they have the same number of real descriptors. *)
Theorem tables_equal_iff_same_real_count (c c' : Configuration) :
  FieldTable c = FieldTable c' <-> real_count c = real_count c'.
Proof.
  destruct c as [[] [] []], c' as [[] [] []]; vm_compute;
    split; intros H; first [reflexivity | discriminate H].
Qed.

Lemma assemble_agree (c c' : Configuration) (ds : list Declaration) :
  Forall2 (fun x y => x = y \/ x = placeholder \/ y = placeholder)
          (assemble c ds) (assemble c' ds).
Proof.
  induction ds as [| d rest IH]; simpl; constructor; [| exact IH].
  unfold emit. destruct (guard d c), (guard d c'); auto.
Qed.

(** X8: the discipline of the header is enough for ordinal stability.
    For any header made of field invocations and [#if]/[#else]/[#endif]
    groups in which each [#else] branch holds one DEFINE_MISSING_FIELD per
    slot of its [#if] branch, preprocessing succeeds under every
    configuration, all tables have the same length, and at each ordinal two
    tables hold the same descriptor unless one of them holds a
    placeholder. *)
Theorem balanced_header_is_ordinal_stable
    (its : list item) (c c' : Configuration) :
  forallb balanced its = true ->
  exists t t',
    table_of c (lines_of its) = Some t
    /\ table_of c' (lines_of its) = Some t'
    /\ List.length t = list_sum (map slots its)
    /\ List.length t' = list_sum (map slots its)
    /\ Forall2 (fun x y => x = y \/ x = placeholder \/ y = placeholder) t t'.
Proof.
  intros Hb. unfold table_of.
  rewrite !(balanced_assemble _ its Hb).
  do 2 eexists. split; [reflexivity |]. split; [reflexivity |].
  assert (forall k, List.length (assemble k (declarations_of its))
                    = list_sum (map slots its)) as Hlen.
  { intros k. unfold assemble, declarations_of. rewrite length_map.
    clear. induction its as [| i rest IH]; simpl; [reflexivity |].
    now rewrite length_app, declarations_length, IH. }
  split; [apply Hlen |]. split; [apply Hlen |].
  apply assemble_agree.
Qed.

Lemma balanced_header_is_ordinal_stable_witness :
  exists t t',
    table_of (mkConfiguration false false true) (lines_of gc_typefields_tree) = Some t
    /\ table_of (mkConfiguration false true false) (lines_of gc_typefields_tree) = Some t'
    /\ List.length t = list_sum (map slots gc_typefields_tree)
    /\ List.length t' = list_sum (map slots gc_typefields_tree)
    /\ Forall2 (fun x y => x = y \/ x = placeholder \/ y = placeholder) t t'.
Proof.
  apply (balanced_header_is_ordinal_stable gc_typefields_tree
           (mkConfiguration false false true) (mkConfiguration false true false)).
  vm_compute; reflexivity.
Defined.

(** X9: no line of the conditional block is redundant.  Removing any
    single field or placeholder line that lies inside the [#if] of line 13
    (lines are counted from 0 here, so these are the invocations at
    [k > 12]) leaves a header that still preprocesses but whose slot count
    depends on the configuration. *)
Theorem every_conditional_line_is_needed (k : nat) (d : invocation) :
  12 < k ->
  nth_error gc_typefields k = Some (Invoke d) ->
  exists c c' t t',
    preprocess c (delete_line k gc_typefields) = Some t
    /\ preprocess c' (delete_line k gc_typefields) = Some t'
    /\ List.length t <> List.length t'.
Proof.
  intros Hk.
  do 13 (destruct k as [| k]; [lia |]). clear Hk.
  do 19 (destruct k as [| k];
         [ intros H; try discriminate H; clear H;
           first
             [ solve [ exists (mkConfiguration false false false),
                              (mkConfiguration true true true);
                       vm_compute; do 2 eexists;
                       split; [reflexivity |]; split; [reflexivity |];
                       discriminate ]
             | solve [ exists (mkConfiguration false true true),
                              (mkConfiguration true true true);
                       vm_compute; do 2 eexists;
                       split; [reflexivity |]; split; [reflexivity |];
                       discriminate ] ]
         |]).
  intros H. destruct k; discriminate H.
Qed.

Lemma every_conditional_line_is_needed_witness :
  exists c c' t t',
    preprocess c (delete_line 30 gc_typefields) = Some t
    /\ preprocess c' (delete_line 30 gc_typefields) = Some t'
    /\ List.length t <> List.length t'.
Proof.
  apply (every_conditional_line_is_needed 30 DEFINE_MISSING_FIELD);
    [lia | reflexivity].
Defined.
